(** * django_ledger: the LedgerModel lifecycle, deletion guard and entity filter

  A shallow embedding of [django_ledger/models/ledger.py]:
  - the [posted] / [locked] / [hidden] flags of [LedgerModelAbstract] and the
    [can_*] predicates over them,
  - the mutating methods [post], [unpost], [lock], [unlock] and [delete],
    written in a small state-and-exception monad over the in-memory
    instance and the trace of calls made to the ORM,
  - [LedgerModelManager.for_entity], as the SQL join and filter the ORM
    builds from the [Q] expression. *)

From Stdlib Require Import ZArith List Bool String Lia Permutation.
Import ListNotations.
Open Scope string_scope.
Open Scope Z_scope.

(** ** Dates and timestamps

  [datetime.date] and [datetime.datetime] values are compared by Python
  field by field, most significant field first. *)
Module Datetime.

Record date := mkdate { year : Z; month : Z; day : Z }.

Record datetime := mkdatetime {
  dt_date : date;
  hour : Z; minute : Z; second : Z; microsecond : Z }.

(** Lexicographic comparison of two tuples of integers. *)
Fixpoint tuple_cmp (xs ys : list Z) : comparison :=
  match xs, ys with
  | [], [] => Eq
  | [], _ :: _ => Lt
  | _ :: _, [] => Gt
  | x :: xs', y :: ys' =>
      match x ?= y with
      | Eq => tuple_cmp xs' ys'
      | c => c
      end
  end.

Definition date_key (d : date) : list Z := [year d; month d; day d].

Definition datetime_key (t : datetime) : list Z :=
  date_key (dt_date t) ++ [hour t; minute t; second t; microsecond t].

(** [a <= b] on dates. *)
Definition date_le (a b : date) : bool :=
  match tuple_cmp (date_key a) (date_key b) with Gt => false | _ => true end.

(** [a <= b] on timestamps, the order [order_by('timestamp')] sorts by. *)
Definition datetime_le (a b : datetime) : bool :=
  match tuple_cmp (datetime_key a) (datetime_key b) with Gt => false | _ => true end.

(** [datetime.date()] *)
Definition date_of (t : datetime) : date := dt_date t.

End Datetime.
Export Datetime.

(** ** Records *)

(** Primary keys of users and the UUID primary keys of the models. *)
Definition UserModel := Z.
Definition UUID := Z.

Module EntityModel.
(** The fields of [EntityModel] that [ledger.py] reads through
    [self.entity] and through the [entity__*] lookups. *)
Record t := mk {
  uuid : UUID;
  slug : string;
  admin : UserModel;
  managers : list UserModel;          (* rows of the many-to-many table *)
  last_closing_date : option date     (* Optional[date] *)
}.
End EntityModel.

Module JournalEntryModel.
Record t := mk {
  timestamp : datetime;
  posted : bool
}.

(** Modelled from the spec: the journal-entry queryset is not part of the
    sources at hand; [posted()] keeps the posted entries ("the most recent
    posted JournalEntry under the ledger"). *)
Definition qs_posted (qs : list t) : list t := filter posted qs.

(** [order_by('-timestamp')]: descending by timestamp. *)
Fixpoint insert_desc (e : t) (qs : list t) : list t :=
  match qs with
  | [] => [e]
  | e' :: qs' =>
      if datetime_le (timestamp e') (timestamp e)
      then e :: e' :: qs'
      else e' :: insert_desc e qs'
  end.

Definition order_by_timestamp_desc (qs : list t) : list t :=
  fold_right insert_desc [] qs.

(** [values('timestamp')] *)
Definition values_timestamp (qs : list t) : list datetime := map timestamp qs.
End JournalEntryModel.

(** [QuerySet.first()] *)
Definition first {A : Type} (qs : list A) : option A :=
  match qs with
  | [] => None
  | x :: _ => Some x
  end.

(** [all([...])] *)
Definition all (bs : list bool) : bool := forallb (fun b => b) bs.

Module LedgerModel.

(** The fields [LedgerModelAbstract] declares, with the journal entries
    that point to the ledger. The [created] and [updated] stamps come from
    [CreateUpdateMixIn] and are written by the ORM. *)
Record t := mk {
  uuid : UUID;
  name : option string;               (* CharField(null=True) *)
  entity : EntityModel.t;
  posted : bool;
  locked : bool;
  hidden : bool;
  journal_entries : list JournalEntryModel.t   (* reverse relation *)
}.

(** A ledger as the field defaults create it. *)
Definition create (u : UUID) (n : option string) (e : EntityModel.t) : t :=
  {| uuid := u; name := n; entity := e;
     posted := false; locked := false; hidden := false;
     journal_entries := [] |}.

Definition set_posted (b : bool) (l : t) : t :=
  {| uuid := uuid l; name := name l; entity := entity l;
     posted := b; locked := locked l; hidden := hidden l;
     journal_entries := journal_entries l |}.

Definition set_locked (b : bool) (l : t) : t :=
  {| uuid := uuid l; name := name l; entity := entity l;
     posted := posted l; locked := b; hidden := hidden l;
     journal_entries := journal_entries l |}.

(** *** Predicates *)

Definition is_posted (self : t) : bool := posted self.
Definition is_locked (self : t) : bool := locked self.
Definition is_hidden (self : t) : bool := hidden self.

Definition can_post (self : t) : bool := negb (posted self).

Definition can_unpost (self : t) : bool :=
  all [is_posted self; negb (is_locked self)].

Definition can_lock (self : t) : bool :=
  all [negb (locked self); posted self].

Definition can_unlock (self : t) : bool :=
  all [locked self; posted self].

Definition can_delete (self : t) : bool :=
  if negb (is_locked self) && negb (is_posted self) then true else false.

Definition get_entity_last_closing_date (self : t) : option date :=
  EntityModel.last_closing_date (entity self).

End LedgerModel.

(** ** Exceptions and the method monad *)

(** The two messages [delete] builds for [LedgerModelValidationError]. *)
Inductive Message :=
| cannot_be_deleted (name : option string) (is_posted is_locked : bool)
| closing_entry (earliest_date : date) (closing : option date).

Inductive Exception :=
| LedgerModelValidationError (message : Message)
| TypeError.

(** Calls a method makes to the ORM. *)
Inductive DbCall :=
| Save (update_fields : list string)
| Delete.

Inductive Result (A : Type) :=
| Returned (a : A)
| Raised (e : Exception).
Arguments Returned {A} a.
Arguments Raised {A} e.

(** What a method runs on: the instance and the ORM calls made so far. *)
Record Heap := mkHeap {
  self : LedgerModel.t;
  calls : list DbCall
}.

Definition M (A : Type) : Type := Heap -> Result A * Heap.

Definition ret {A} (a : A) : M A := fun h => (Returned a, h).

Definition bind {A B} (m : M A) (k : A -> M B) : M B :=
  fun h =>
    match m h with
    | (Returned a, h') => k a h'
    | (Raised e, h') => (Raised e, h')
    end.

Definition raise {A} (e : Exception) : M A := fun h => (Raised e, h).

Definition get_self : M LedgerModel.t := fun h => (Returned (self h), h).

Definition modify_self (f : LedgerModel.t -> LedgerModel.t) : M unit :=
  fun h => (Returned tt, {| self := f (self h); calls := calls h |}).

Definition orm (c : DbCall) : M unit :=
  fun h => (Returned tt, {| self := self h; calls := calls h ++ [c] |}).

Definition when (b : bool) (m : M unit) : M unit :=
  if b then m else ret tt.

Declare Scope method_scope.
Delimit Scope method_scope with method.
Notation "x <- m ;; k" := (bind m (fun x => k))
  (at level 61, m at next level, right associativity) : method_scope.
Notation "m ;; k" := (bind m (fun _ => k))
  (at level 61, right associativity) : method_scope.
Open Scope method_scope.

(** ** The methods of [LedgerModelAbstract] *)
Module LedgerModelAbstract.
Import LedgerModel.

(** Modelled from the spec: [save] and the inherited [delete] belong to the
    persistence collaborator ("persist(ledger, changedFields)",
    "destroy(ledger)"); each is recorded as one call in the trace. *)
Definition save (update_fields : list string) : M unit :=
  orm (Save update_fields).

Definition super_delete : M unit := orm Delete.

(** [earliest_date <= self.entity.last_closing_date]: comparing a date
    with [None] raises [TypeError]. *)
Definition date_le_optional (d : date) (c : option date) : M bool :=
  match c with
  | Some c' => ret (date_le d c')
  | None => raise TypeError
  end.

Definition delete : M unit :=
  self <- get_self ;;
  when (negb (can_delete self))
    (raise (LedgerModelValidationError
              (cannot_be_deleted (name self) (is_posted self) (is_locked self)))) ;;
  let earliest_je_timestamp :=
    first (JournalEntryModel.values_timestamp
             (JournalEntryModel.order_by_timestamp_desc
                (JournalEntryModel.qs_posted (journal_entries self)))) in
  match earliest_je_timestamp with
  | Some ts =>
      let earliest_date := date_of ts in
      closed <- date_le_optional earliest_date
                  (EntityModel.last_closing_date (entity self)) ;;
      when closed
        (raise (LedgerModelValidationError
                  (closing_entry earliest_date (get_entity_last_closing_date self))))
  | None => ret tt
  end ;;
  super_delete.

Definition post (commit : bool) : M unit :=
  self <- get_self ;;
  when (can_post self)
    (modify_self (set_posted true) ;;
     when commit (save ["posted"; "updated"])).

Definition unpost (commit : bool) : M unit :=
  self <- get_self ;;
  when (can_unpost self)
    (modify_self (set_posted false) ;;
     when commit (save ["posted"; "updated"])).

Definition lock (commit : bool) : M unit :=
  self <- get_self ;;
  when (can_lock self)
    (modify_self (set_locked true) ;;
     when commit (save ["locked"; "updated"])).

Definition unlock (commit : bool) : M unit :=
  self <- get_self ;;
  when (can_unlock self)
    (modify_self (set_locked false) ;;
     when commit (save ["locked"; "updated"])).

End LedgerModelAbstract.

(** ** [LedgerModelManager] *)

(** [for_entity] takes an [EntityModel] instance or a slug. *)
Inductive EntityRef :=
| EntityInstance (e : EntityModel.t)
| EntitySlug (s : string).

Module LedgerModelManager.

(** One row of the SQL the queryset runs: a ledger, its entity
    ([select_related('entity')]) and one row of the outer join on the
    entity's managers table ([None] when the entity has no manager). *)
Record Row := mkRow {
  ledger : LedgerModel.t;
  manager : option UserModel
}.

Definition join_managers (l : LedgerModel.t) : list Row :=
  match EntityModel.managers (LedgerModel.entity l) with
  | [] => [mkRow l None]
  | ms => map (fun m => mkRow l (Some m)) ms
  end.

(** [Q(entity=e)] *)
Definition Q_entity (e : EntityModel.t) (r : Row) : bool :=
  EntityModel.uuid (LedgerModel.entity (ledger r)) =? EntityModel.uuid e.

(** [Q(entity__slug__exact=s)] *)
Definition Q_entity__slug__exact (s : string) (r : Row) : bool :=
  String.eqb (EntityModel.slug (LedgerModel.entity (ledger r))) s.

(** [Q(entity__admin=u)] *)
Definition Q_entity__admin (u : UserModel) (r : Row) : bool :=
  EntityModel.admin (LedgerModel.entity (ledger r)) =? u.

(** [Q(entity__managers__in=us)] *)
Definition Q_entity__managers__in (us : list UserModel) (r : Row) : bool :=
  match manager r with
  | Some m => existsb (Z.eqb m) us
  | None => false
  end.

Definition get_queryset (table : list LedgerModel.t) : list Row :=
  flat_map join_managers table.

(** [qs.filter(q)], projected back on the ledgers. *)
Definition qs_filter (q : Row -> bool) (qs : list Row) : list LedgerModel.t :=
  map ledger (filter q qs).

Definition for_entity (table : list LedgerModel.t)
    (entity_slug : EntityRef) (user_model : UserModel) : list LedgerModel.t :=
  let qs := get_queryset table in
  match entity_slug with
  | EntityInstance e =>
      qs_filter (fun r => Q_entity e r &&
                          (Q_entity__admin user_model r ||
                           Q_entity__managers__in [user_model] r)) qs
  | EntitySlug s =>
      qs_filter (fun r => Q_entity__slug__exact s r &&
                          (Q_entity__admin user_model r ||
                           Q_entity__managers__in [user_model] r)) qs
  end.

End LedgerModelManager.

(** ** Sequences of lifecycle calls *)

Inductive Call :=
| Post (commit : bool)
| Unpost (commit : bool)
| Lock (commit : bool)
| Unlock (commit : bool).

Definition exec (c : Call) : M unit :=
  match c with
  | Post commit => LedgerModelAbstract.post commit
  | Unpost commit => LedgerModelAbstract.unpost commit
  | Lock commit => LedgerModelAbstract.lock commit
  | Unlock commit => LedgerModelAbstract.unlock commit
  end.

(** The guard each call tests before it mutates. *)
Definition can (c : Call) (l : LedgerModel.t) : bool :=
  match c with
  | Post _ => LedgerModel.can_post l
  | Unpost _ => LedgerModel.can_unpost l
  | Lock _ => LedgerModel.can_lock l
  | Unlock _ => LedgerModel.can_unlock l
  end.

(** A freshly created instance, before any call to the ORM. *)
Definition fresh (u : UUID) (n : option string) (e : EntityModel.t) : Heap :=
  {| self := LedgerModel.create u n e; calls := [] |}.

Inductive reachable : Heap -> Prop :=
| reach_create : forall u n e, reachable (fresh u n e)
| reach_call : forall c h, reachable h -> reachable (snd (exec c h)).

(** The state after running a method. *)
Definition after {A} (m : M A) (h : Heap) : Heap := snd (m h).

(** The outcome of running a method. *)
Definition outcome {A} (m : M A) (h : Heap) : Result A := fst (m h).

Definition flags (l : LedgerModel.t) : bool * bool * bool :=
  (LedgerModel.posted l, LedgerModel.locked l, LedgerModel.hidden l).

Definition posted_locked (l : LedgerModel.t) : bool * bool :=
  (LedgerModel.posted l, LedgerModel.locked l).

Definition locked_implies_posted (l : LedgerModel.t) : Prop :=
  LedgerModel.locked l = true -> LedgerModel.posted l = true.

(** Every field but [posted], respectively [locked], is the same. *)
Definition same_but_posted (l l' : LedgerModel.t) : Prop :=
  LedgerModel.uuid l' = LedgerModel.uuid l /\
  LedgerModel.name l' = LedgerModel.name l /\
  LedgerModel.entity l' = LedgerModel.entity l /\
  LedgerModel.locked l' = LedgerModel.locked l /\
  LedgerModel.hidden l' = LedgerModel.hidden l /\
  LedgerModel.journal_entries l' = LedgerModel.journal_entries l.

Definition same_but_locked (l l' : LedgerModel.t) : Prop :=
  LedgerModel.uuid l' = LedgerModel.uuid l /\
  LedgerModel.name l' = LedgerModel.name l /\
  LedgerModel.entity l' = LedgerModel.entity l /\
  LedgerModel.posted l' = LedgerModel.posted l /\
  LedgerModel.hidden l' = LedgerModel.hidden l /\
  LedgerModel.journal_entries l' = LedgerModel.journal_entries l.

(** The ledger belongs to the entity the reference names. *)
Definition belongs_to (l : LedgerModel.t) (ref : EntityRef) : Prop :=
  match ref with
  | EntityInstance e => EntityModel.uuid (LedgerModel.entity l) = EntityModel.uuid e
  | EntitySlug s => EntityModel.slug (LedgerModel.entity l) = s
  end.

(** The user is the entity's admin or one of its managers. *)
Definition admin_or_manager (u : UserModel) (e : EntityModel.t) : Prop :=
  EntityModel.admin e = u \/ In u (EntityModel.managers e).

(** The timestamp [delete] reads: that of the first posted journal entry
    in descending timestamp order. *)
Definition queried_timestamp (l : LedgerModel.t) : option datetime :=
  first (JournalEntryModel.values_timestamp
           (JournalEntryModel.order_by_timestamp_desc
              (JournalEntryModel.qs_posted (LedgerModel.journal_entries l)))).

(** [ts] is the greatest timestamp among the posted journal entries. *)
Definition most_recent_posted (l : LedgerModel.t) (ts : datetime) : Prop :=
  (exists e, In e (LedgerModel.journal_entries l) /\
             JournalEntryModel.posted e = true /\
             JournalEntryModel.timestamp e = ts) /\
  (forall e, In e (LedgerModel.journal_entries l) ->
             JournalEntryModel.posted e = true ->
             datetime_le (JournalEntryModel.timestamp e) ts = true).

(** The head of a queryset carries its greatest timestamp. *)
Definition head_is_max (qs : list JournalEntryModel.t) : Prop :=
  match qs with
  | [] => True
  | h :: _ => forall x, In x qs -> datetime_le (JournalEntryModel.timestamp x) (JournalEntryModel.timestamp h) = true
  end.

Definition no_posted_entry (l : LedgerModel.t) : Prop :=
  forall e, In e (LedgerModel.journal_entries l) ->
            JournalEntryModel.posted e = false.

(** The heap after the inherited [delete] went through. *)
Definition destroyed (h : Heap) : Heap :=
  {| self := self h; calls := calls h ++ [Delete] |}.

(** The two validation errors of [delete], by what they carry. *)
Definition LedgerNotDeletable (l : LedgerModel.t) : Exception :=
  LedgerModelValidationError
    (cannot_be_deleted (LedgerModel.name l) (LedgerModel.posted l)
       (LedgerModel.locked l)).

Definition ClosedPeriodViolation (d closing : date) : Exception :=
  LedgerModelValidationError (closing_entry d (Some closing)).

(** ** [LedgerModelQuerySet] *)
Module LedgerModelQuerySet.

(** [self.filter(posted=True)] *)
Definition posted (qs : list LedgerModel.t) : list LedgerModel.t :=
  filter (fun l => LedgerModel.posted l) qs.

(** [self.filter(hidden=True)] *)
Definition hidden (qs : list LedgerModel.t) : list LedgerModel.t :=
  filter (fun l => LedgerModel.hidden l) qs.

(** [self.filter(hidden=False)] *)
Definition visible (qs : list LedgerModel.t) : list LedgerModel.t :=
  filter (fun l => negb (LedgerModel.hidden l)) qs.

End LedgerModelQuerySet.

(** ** Call sequences, traces and variations of a ledger *)

(** The calls of a list, one after the other. *)
Fixpoint run (cs : list Call) : M unit :=
  match cs with
  | [] => ret tt
  | c :: cs' => exec c ;; run cs'
  end.

Definition commit_of (c : Call) : bool :=
  match c with
  | Post commit | Unpost commit | Lock commit | Unlock commit => commit
  end.

(** The field a call assigns and names in [update_fields]. *)
Definition field_of (c : Call) : string :=
  match c with
  | Post _ | Unpost _ => "posted"
  | Lock _ | Unlock _ => "locked"
  end.

(** The call that undoes a call, and the same call once more. *)
Definition inverse (c : Call) (commit : bool) : Call :=
  match c with
  | Post _ => Unpost commit
  | Unpost _ => Post commit
  | Lock _ => Unlock commit
  | Unlock _ => Lock commit
  end.

Definition again (c : Call) (commit : bool) : Call :=
  match c with
  | Post _ => Post commit
  | Unpost _ => Unpost commit
  | Lock _ => Lock commit
  | Unlock _ => Unlock commit
  end.

(** A save issued by a lifecycle call names one flag and [updated]. *)
Definition partial_save (e : DbCall) : Prop :=
  e = Save ["posted"; "updated"] \/ e = Save ["locked"; "updated"].

(** The ledger with another value of [hidden], with other journal
    entries, or under another closing date of its entity. *)
Definition with_hidden (b : bool) (l : LedgerModel.t) : LedgerModel.t :=
  LedgerModel.mk (LedgerModel.uuid l) (LedgerModel.name l) (LedgerModel.entity l)
    (LedgerModel.posted l) (LedgerModel.locked l) b (LedgerModel.journal_entries l).

Definition with_journal_entries (jes : list JournalEntryModel.t)
    (l : LedgerModel.t) : LedgerModel.t :=
  LedgerModel.mk (LedgerModel.uuid l) (LedgerModel.name l) (LedgerModel.entity l)
    (LedgerModel.posted l) (LedgerModel.locked l) (LedgerModel.hidden l) jes.

Definition with_closing_date (c : option date) (l : LedgerModel.t) : LedgerModel.t :=
  let e := LedgerModel.entity l in
  LedgerModel.mk (LedgerModel.uuid l) (LedgerModel.name l)
    (EntityModel.mk (EntityModel.uuid e) (EntityModel.slug e) (EntityModel.admin e)
       (EntityModel.managers e) c)
    (LedgerModel.posted l) (LedgerModel.locked l) (LedgerModel.hidden l)
    (LedgerModel.journal_entries l).

Definition on_self (f : LedgerModel.t -> LedgerModel.t) (h : Heap) : Heap :=
  {| self := f (self h); calls := calls h |}.

(** The entity test of [for_entity], on a ledger. *)
Definition matches (ref : EntityRef) (l : LedgerModel.t) : bool :=
  match ref with
  | EntityInstance e =>
      EntityModel.uuid (LedgerModel.entity l) =? EntityModel.uuid e
  | EntitySlug s => String.eqb (EntityModel.slug (LedgerModel.entity l)) s
  end.

(** How many joined rows of a ledger pass the filter of [for_entity]. *)
Definition times_returned (ref : EntityRef) (u : UserModel)
    (l : LedgerModel.t) : nat :=
  let e := LedgerModel.entity l in
  if matches ref l then
    if EntityModel.admin e =? u
    then Nat.max 1 (List.length (EntityModel.managers e))
    else List.length (filter (fun m => m =? u) (EntityModel.managers e))
  else 0%nat.

(** The five ways through [delete]. *)
Inductive delete_case (h : Heap) : Result unit * Heap -> Prop :=
| refused_for_state :
    LedgerModel.can_delete (self h) = false ->
    delete_case h (Raised (LedgerNotDeletable (self h)), h)
| destroyed_without_entry :
    LedgerModel.can_delete (self h) = true ->
    no_posted_entry (self h) ->
    delete_case h (Returned tt, destroyed h)
| failed_on_unset_date : forall ts,
    LedgerModel.can_delete (self h) = true ->
    most_recent_posted (self h) ts ->
    EntityModel.last_closing_date (LedgerModel.entity (self h)) = None ->
    delete_case h (Raised TypeError, h)
| refused_for_closed_period : forall ts c,
    LedgerModel.can_delete (self h) = true ->
    most_recent_posted (self h) ts ->
    EntityModel.last_closing_date (LedgerModel.entity (self h)) = Some c ->
    date_le (date_of ts) c = true ->
    delete_case h (Raised (ClosedPeriodViolation (date_of ts) c), h)
| destroyed_after_closing : forall ts c,
    LedgerModel.can_delete (self h) = true ->
    most_recent_posted (self h) ts ->
    EntityModel.last_closing_date (LedgerModel.entity (self h)) = Some c ->
    date_le (date_of ts) c = false ->
    delete_case h (Returned tt, destroyed h).

(** ** Scenarios *)

(** An entity with admin 3 and managers 4 and 5. *)
Definition acme (closing : option date) : EntityModel.t :=
  EntityModel.mk 7 "acme" 3 [4; 5] closing.

(** A journal entry stamped 09:30 on the given day. *)
Definition entry (y m d : Z) (is_posted : bool) : JournalEntryModel.t :=
  JournalEntryModel.mk (mkdatetime (mkdate y m d) 9 30 0 0) is_posted.

Definition ledger_of (e : EntityModel.t) (is_posted is_locked : bool)
    (jes : list JournalEntryModel.t) : Heap :=
  {| self := LedgerModel.mk 1 (Some "books") e is_posted is_locked false jes;
     calls := [] |}.

(** Scenario B: posted, not locked, books closed on 2023-01-31, most
    recent posted entry on 2023-01-15. *)
Definition scenario_B : Heap :=
  ledger_of (acme (Some (mkdate 2023 1 31))) true false
    [entry 2022 12 1 true; entry 2023 1 15 true; entry 2023 3 1 false].

(** Scenario C: unposted, books closed on 2023-01-31, most recent posted
    entry on 2023-02-01, an older posted entry on 2023-01-15. *)
Definition scenario_C : Heap :=
  ledger_of (acme (Some (mkdate 2023 1 31))) false false
    [entry 2023 1 15 true; entry 2023 2 1 true].

(** The ledger of scenario C under an entity that never closed its books. *)
Definition scenario_C_never_closed : Heap :=
  ledger_of (acme None) false false
    [entry 2023 1 15 true; entry 2023 2 1 true].

(** A deletable ledger with one posted entry, under an entity that never
    closed its books. *)
Definition never_closed : Heap :=
  ledger_of (acme None) false false [entry 2023 1 15 true].

(** * Proofs *)

Import LedgerModel LedgerModelAbstract.

Ltac run_method :=
  unfold exec, post, unpost, lock, unlock, save, orm, when, bind, ret,
    get_self, modify_self, can_post, can_unpost, can_lock, can_unlock,
    is_posted, is_locked, all, after, outcome in *; simpl in *.

Ltac by_flags l :=
  destruct l as [? ? ? [] [] ? ?]; simpl in *.

(** ** The state machine *)

Lemma exec_returns (c : Call) (h : Heap) : outcome (exec c) h = Returned tt.
Proof.
  destruct c as [[]|[]|[]|[]], h as [l tr]; by_flags l; run_method; reflexivity.
Qed.

Lemma exec_preserves_invariant (c : Call) (h : Heap) :
  locked_implies_posted (self h) ->
  locked_implies_posted (self (snd (exec c h))).
Proof.
  unfold locked_implies_posted.
  destruct c as [[]|[]|[]|[]], h as [l tr]; by_flags l; run_method;
    intuition congruence.
Qed.

Lemma reachable_invariant (h : Heap) :
  reachable h -> locked_implies_posted (self h).
Proof.
  induction 1 as [u n e | c h Hr IH].
  - unfold locked_implies_posted; simpl; discriminate.
  - now apply exec_preserves_invariant.
Qed.

(** C1. A ledger is created with the three flags false; on every ledger
    reachable from there by post, unpost, lock and unlock calls, locked
    implies posted; and each of the four calls preserves that invariant
    from any ledger that satisfies it. *)
Theorem C1_locked_implies_posted :
  (forall u n e, flags (create u n e) = (false, false, false)) /\
  (forall h, reachable h ->
     locked (self h) = true -> posted (self h) = true) /\
  (forall c h,
     (locked (self h) = true -> posted (self h) = true) ->
     locked (self (after (exec c) h)) = true ->
     posted (self (after (exec c) h)) = true).
Proof.
  split; [reflexivity | split].
  - exact reachable_invariant.
  - intros c h Hinv. exact (exec_preserves_invariant c h Hinv).
Qed.

(** A ledger that was created, posted and locked. *)
Lemma C1_locked_implies_posted_witness :
  let h := after (exec (Lock true))
             (after (exec (Post false))
                (fresh 1 (Some "books") (acme None))) in
  reachable h /\ locked (self h) = true /\ posted (self h) = true.
Proof.
  intro h.
  assert (R : reachable h) by (repeat constructor).
  split; [exact R | split; [reflexivity |]].
  exact (proj1 (proj2 C1_locked_implies_posted) h R eq_refl).
Defined.

(** C2. The five predicates are the stated formulas over the flags. *)
Theorem C2_transition_predicates (l : LedgerModel.t) :
  (can_post l = true <-> posted l = false) /\
  (can_unpost l = true <-> posted l = true /\ locked l = false) /\
  (can_lock l = true <-> locked l = false /\ posted l = true) /\
  (can_unlock l = true <-> locked l = true /\ posted l = true) /\
  (can_delete l = true <-> posted l = false /\ locked l = false).
Proof.
  unfold can_delete; by_flags l; run_method; intuition congruence.
Qed.

(** C7. A call whose guard is false returns normally and leaves the
    instance, hence its three flags, and the ORM trace as they were. *)
Theorem C7_illegal_call_is_noop (c : Call) (h : Heap) :
  can c (self h) = false ->
  outcome (exec c) h = Returned tt /\
  flags (self (after (exec c) h)) = flags (self h) /\
  after (exec c) h = h.
Proof.
  intro Hcan.
  destruct c as [[]|[]|[]|[]], h as [l tr]; by_flags l; run_method;
    try discriminate; repeat split.
Qed.

(** Scenario E: unlock on a ledger that is not locked. *)
Lemma C7_illegal_call_is_noop_witness :
  let h := fresh 1 (Some "books") (acme None) in
  locked (self h) = false /\
  outcome (unlock false) h = Returned tt /\
  flags (self (after (unlock false) h)) = flags (self h) /\
  after (unlock false) h = h.
Proof.
  intro h. split; [reflexivity |].
  exact (C7_illegal_call_is_noop (Unlock false) h eq_refl).
Defined.

(** C8, as stated, fails on a ledger that is already posted and locked:
    lock does nothing there and unlock then clears [locked]. *)
Lemma C8_round_trip_counterexample :
  let h := after (exec (Lock false))
             (after (exec (Post false))
                (fresh 1 (Some "books") (acme None))) in
  reachable h /\
  posted_locked (self h) = (true, true) /\
  posted_locked (self (after (lock false ;; unlock false) h)) = (true, false) /\
  posted_locked (self (after (lock false ;; unlock false) h))
    <> posted_locked (self h).
Proof.
  intro h. split; [repeat constructor |].
  repeat split; try reflexivity. discriminate.
Qed.

(** C8, amended. On a ledger that is not both posted and locked, lock
    followed by unlock restores the (posted, locked) pair. *)
Theorem C8_lock_unlock_round_trip (h : Heap) (c1 c2 : bool) :
  (posted (self h) && locked (self h)) = false ->
  posted_locked (self (after (lock c1 ;; unlock c2) h)) = posted_locked (self h).
Proof.
  intro H.
  destruct c1, c2, h as [l tr]; by_flags l; run_method;
    try discriminate; reflexivity.
Qed.

(** A posted, unlocked ledger: lock sets [locked], unlock clears it. *)
Lemma C8_lock_unlock_round_trip_witness :
  let h := after (exec (Post false))
             (fresh 1 (Some "books") (acme None)) in
  posted_locked (self h) = (true, false) /\
  posted_locked (self (after (lock true) h)) = (true, true) /\
  posted_locked (self (after (lock true ;; unlock true) h)) = posted_locked (self h).
Proof.
  intro h. split; [reflexivity | split; [reflexivity |]].
  exact (C8_lock_unlock_round_trip h true true eq_refl).
Defined.

(** C9. After one call of post the ledger is posted, after a second call
    it still is, both calls return normally, and the second changes
    nothing at all. *)
Theorem C9_post_idempotent (h : Heap) (c1 c2 : bool) :
  outcome (post c1) h = Returned tt /\
  posted (self (after (post c1) h)) = true /\
  outcome (post c2) (after (post c1) h) = Returned tt /\
  posted (self (after (post c2) (after (post c1) h))) = true /\
  after (post c2) (after (post c1) h) = after (post c1) h.
Proof.
  destruct c1, c2, h as [l tr]; by_flags l; run_method; repeat split.
Qed.

(** ** Order of dates and timestamps *)

Section TupleOrder.

Lemma tuple_cmp_eq (xs ys : list Z) : tuple_cmp xs ys = Eq -> xs = ys.
Proof.
  revert ys; induction xs as [|x xs IH]; intros [|y ys]; simpl;
    try discriminate; [reflexivity |].
  destruct (Z.compare_spec x y) as [Hxy | |]; try discriminate.
  intro E; subst; f_equal; auto.
Qed.

Lemma tuple_cmp_opp (xs ys : list Z) :
  tuple_cmp ys xs = CompOpp (tuple_cmp xs ys).
Proof.
  revert ys; induction xs as [|x xs IH]; intros [|y ys]; simpl; try reflexivity.
  rewrite (Z.compare_antisym x y).
  destruct (x ?= y); simpl; auto.
Qed.

Lemma tuple_cmp_trans (xs ys zs : list Z) :
  tuple_cmp xs ys <> Gt -> tuple_cmp ys zs <> Gt -> tuple_cmp xs zs <> Gt.
Proof.
  revert ys zs; induction xs as [|x xs IH]; intros [|y ys] [|z zs]; simpl;
    try congruence.
  destruct (Z.compare_spec x y), (Z.compare_spec y z), (Z.compare_spec x z);
    try congruence; try lia; subst; eauto.
Qed.

End TupleOrder.

Lemma datetime_le_total (a b : datetime) :
  datetime_le a b = false -> datetime_le b a = true.
Proof.
  unfold datetime_le.
  rewrite (tuple_cmp_opp (datetime_key a) (datetime_key b)).
  destruct (tuple_cmp (datetime_key a) (datetime_key b)); simpl; congruence.
Qed.

Lemma datetime_le_refl (a : datetime) : datetime_le a a = true.
Proof.
  destruct (datetime_le a a) eqn:E; [reflexivity |].
  rewrite <- E at 1. now apply datetime_le_total.
Qed.

Lemma datetime_le_trans (a b c : datetime) :
  datetime_le a b = true -> datetime_le b c = true -> datetime_le a c = true.
Proof.
  unfold datetime_le; intros Hab Hbc.
  pose proof (tuple_cmp_trans (datetime_key a) (datetime_key b) (datetime_key c)) as T.
  destruct (tuple_cmp (datetime_key a) (datetime_key b)),
           (tuple_cmp (datetime_key b) (datetime_key c)),
           (tuple_cmp (datetime_key a) (datetime_key c));
    try reflexivity; try discriminate; exfalso; apply T; congruence.
Qed.

Lemma datetime_le_antisym (a b : datetime) :
  datetime_le a b = true -> datetime_le b a = true -> a = b.
Proof.
  unfold datetime_le.
  rewrite (tuple_cmp_opp (datetime_key a) (datetime_key b)).
  destruct (tuple_cmp (datetime_key a) (datetime_key b)) eqn:E; simpl;
    try discriminate.
  intros _ _. apply tuple_cmp_eq in E.
  destruct a as [[] ? ? ? ?], b as [[] ? ? ? ?]; simpl in E.
  now inversion E.
Qed.

(** ** [order_by('-timestamp')] followed by [first()] *)

Section OrderBy.
Import JournalEntryModel.

Lemma in_insert_desc (e x : JournalEntryModel.t) (qs : list JournalEntryModel.t) :
  In x (insert_desc e qs) <-> x = e \/ In x qs.
Proof.
  induction qs as [|e' qs IH]; simpl.
  - intuition.
  - destruct (datetime_le (timestamp e') (timestamp e)); simpl; intuition.
Qed.

Lemma in_order_by (x : JournalEntryModel.t) (qs : list JournalEntryModel.t) :
  In x (order_by_timestamp_desc qs) <-> In x qs.
Proof.
  induction qs as [|e qs IH]; simpl; [tauto |].
  rewrite in_insert_desc, IH. intuition.
Qed.

Lemma insert_desc_head (e : JournalEntryModel.t) (qs : list JournalEntryModel.t) :
  head_is_max qs -> head_is_max (insert_desc e qs).
Proof.
  destruct qs as [|h qs]; simpl.
  - intros _ x [<- | []]. apply datetime_le_refl.
  - intro Hmax.
    destruct (datetime_le (timestamp h) (timestamp e)) eqn:E; simpl.
    + intros x [<- | Hx]; [apply datetime_le_refl |].
      eapply datetime_le_trans; [apply Hmax, Hx | exact E].
    + intros x [<- | Hx]; [apply datetime_le_refl |].
      apply in_insert_desc in Hx as [-> | Hx].
      * now apply datetime_le_total.
      * apply Hmax; now right.
Qed.

Lemma order_by_head (qs : list JournalEntryModel.t) :
  head_is_max (order_by_timestamp_desc qs).
Proof.
  induction qs as [|e qs IH]; simpl; [exact I |].
  now apply insert_desc_head.
Qed.

End OrderBy.

(** The timestamp [delete] reads is the greatest one among the posted
    journal entries, and there is none exactly when no entry is posted. *)
Lemma queried_timestamp_some (l : LedgerModel.t) (ts : datetime) :
  queried_timestamp l = Some ts <-> most_recent_posted l ts.
Proof.
  unfold queried_timestamp, most_recent_posted,
    JournalEntryModel.values_timestamp, JournalEntryModel.qs_posted.
  pose proof (order_by_head (filter JournalEntryModel.posted (journal_entries l))) as Hmax.
  pose proof (fun x => in_order_by x (filter JournalEntryModel.posted (journal_entries l))) as Hin.
  destruct (JournalEntryModel.order_by_timestamp_desc
              (filter JournalEntryModel.posted (journal_entries l))) as [|h s];
    simpl in *.
  - split; [discriminate |].
    intros [[e [He [Hp _]]] _].
    destruct (proj2 (Hin e)); apply filter_In; auto.
  - assert (Hh : In h (journal_entries l) /\ JournalEntryModel.posted h = true)
      by (apply filter_In, Hin; now left).
    split.
    + intros [= <-]. split.
      * exists h; tauto.
      * intros e He Hp. apply Hmax, Hin, filter_In; auto.
    + intros [[e [He [Hp <-]]] Hall].
      f_equal. apply datetime_le_antisym.
      * apply Hall; tauto.
      * apply Hmax, Hin, filter_In; auto.
Qed.

Lemma queried_timestamp_none (l : LedgerModel.t) :
  queried_timestamp l = None <-> no_posted_entry l.
Proof.
  unfold queried_timestamp, no_posted_entry,
    JournalEntryModel.values_timestamp, JournalEntryModel.qs_posted.
  pose proof (fun x => in_order_by x (filter JournalEntryModel.posted (journal_entries l))) as Hin.
  destruct (JournalEntryModel.order_by_timestamp_desc
              (filter JournalEntryModel.posted (journal_entries l))) as [|h s];
    simpl in *.
  - split; [| reflexivity].
    intros _ e He. destruct (JournalEntryModel.posted e) eqn:Hp; [| reflexivity].
    destruct (proj2 (Hin e)). apply filter_In; auto.
  - split; [discriminate |].
    intro Hno. assert (Hh : In h (filter JournalEntryModel.posted (journal_entries l)))
      by (apply Hin; now left).
    apply filter_In in Hh as [Hh Hp]. rewrite (Hno h Hh) in Hp. discriminate.
Qed.

(** [date_le] is the order of calendar dates. *)
Lemma date_le_spec (a b : date) :
  date_le a b = true <->
  year a < year b \/
  (year a = year b /\ (month a < month b \/ (month a = month b /\ day a <= day b))).
Proof.
  unfold date_le, date_key; simpl.
  destruct (Z.compare_spec (year a) (year b)),
           (Z.compare_spec (month a) (month b)),
           (Z.compare_spec (day a) (day b));
    split; intro; try discriminate; try reflexivity; lia.
Qed.

(** ** [delete], case by case *)

Lemma delete_eq (h : Heap) :
  delete h =
  if can_delete (self h) then
    match queried_timestamp (self h) with
    | None => (Returned tt, destroyed h)
    | Some ts =>
        match EntityModel.last_closing_date (entity (self h)) with
        | None => (Raised TypeError, h)
        | Some c =>
            if date_le (date_of ts) c
            then (Raised (ClosedPeriodViolation (date_of ts) c), h)
            else (Returned tt, destroyed h)
        end
    end
  else (Raised (LedgerNotDeletable (self h)), h).
Proof.
  unfold delete, queried_timestamp, get_entity_last_closing_date,
    date_le_optional, super_delete, LedgerNotDeletable, ClosedPeriodViolation,
    destroyed, bind, get_self, when, raise, ret, orm.
  destruct (can_delete (self h)); simpl; [| reflexivity].
  destruct (first _) as [ts|]; [| reflexivity].
  destruct (EntityModel.last_closing_date (entity (self h))) as [c|];
    [| reflexivity].
  destruct (date_le (date_of ts) c); reflexivity.
Qed.

Lemma delete_not_deletable (h : Heap) :
  can_delete (self h) = false ->
  delete h = (Raised (LedgerNotDeletable (self h)), h).
Proof.
  intro Hc. rewrite delete_eq, Hc. reflexivity.
Qed.

Lemma delete_no_entry (h : Heap) :
  can_delete (self h) = true ->
  queried_timestamp (self h) = None ->
  delete h = (Returned tt, destroyed h).
Proof.
  intros Hc Hq. rewrite delete_eq, Hc, Hq. reflexivity.
Qed.

Lemma delete_closing_set (h : Heap) (ts : datetime) (c : date) :
  can_delete (self h) = true ->
  queried_timestamp (self h) = Some ts ->
  EntityModel.last_closing_date (entity (self h)) = Some c ->
  delete h = if date_le (date_of ts) c
             then (Raised (ClosedPeriodViolation (date_of ts) c), h)
             else (Returned tt, destroyed h).
Proof.
  intros Hc Hq Hd. rewrite delete_eq, Hc, Hq, Hd. reflexivity.
Qed.

Lemma delete_closing_unset (h : Heap) (ts : datetime) :
  can_delete (self h) = true ->
  queried_timestamp (self h) = Some ts ->
  EntityModel.last_closing_date (entity (self h)) = None ->
  delete h = (Raised TypeError, h).
Proof.
  intros Hc Hq Hd. rewrite delete_eq, Hc, Hq, Hd. reflexivity.
Qed.

(** Whatever [delete] does, the instance is left as it was, and a raising
    [delete] has made no call to the ORM. *)
Lemma delete_frame (h : Heap) :
  self (after delete h) = self h /\
  (forall e, outcome delete h = Raised e -> after delete h = h).
Proof.
  unfold outcome, after.
  destruct (can_delete (self h)) eqn:Hc.
  - destruct (queried_timestamp (self h)) as [ts|] eqn:Hq.
    + destruct (EntityModel.last_closing_date (entity (self h))) as [c|] eqn:Hd.
      * rewrite (delete_closing_set h ts c Hc Hq Hd).
        destruct (date_le (date_of ts) c); simpl; split; auto; discriminate.
      * rewrite (delete_closing_unset h ts Hc Hq Hd); simpl; auto.
    + rewrite (delete_no_entry h Hc Hq); simpl; split; auto; discriminate.
  - rewrite (delete_not_deletable h Hc); simpl; auto.
Qed.

(** On a deletable ledger whose entity has a closing date, the outcome of
    [delete] is decided by the most recent posted journal entry alone. *)
Lemma delete_decided_by_most_recent (h : Heap) (c : date) :
  can_delete (self h) = true ->
  EntityModel.last_closing_date (entity (self h)) = Some c ->
  (no_posted_entry (self h) -> delete h = (Returned tt, destroyed h)) /\
  (forall ts, most_recent_posted (self h) ts ->
     (date_le (date_of ts) c = true ->
        delete h = (Raised (ClosedPeriodViolation (date_of ts) c), h)) /\
     (date_le (date_of ts) c = false ->
        delete h = (Returned tt, destroyed h))).
Proof.
  intros Hc Hd. split.
  - intro Hno. apply delete_no_entry; [exact Hc |].
    now apply queried_timestamp_none.
  - intros ts Hts. apply queried_timestamp_some in Hts.
    rewrite (delete_closing_set h ts c Hc Hts Hd).
    split; intros ->; reflexivity.
Qed.

(** ** The deletion guard *)

(** C3. Under an entity that never closed its books, the ledger of
    scenario C is deletable and its most recent posted entry is that of
    2023-02-01, yet [delete] neither reports a closed period nor destroys
    the ledger: the comparison with the unset closing date raises
    [TypeError]. With the closing date set to 2023-01-31 the same ledger is
    destroyed, the older posted entry of 2023-01-15 notwithstanding. *)
Theorem C3_delete_most_recent_entry_unset_closing_date :
  can_delete (self scenario_C_never_closed) = true /\
  most_recent_posted (self scenario_C_never_closed)
    (JournalEntryModel.timestamp (entry 2023 2 1 true)) /\
  delete scenario_C_never_closed = (Raised TypeError, scenario_C_never_closed) /\
  delete scenario_C = (Returned tt, destroyed scenario_C).
Proof.
  split; [reflexivity | split; [| split; reflexivity]].
  now apply queried_timestamp_some.
Qed.

(** C4, as stated, fails: in scenario B the error is the one of the state
    check, not the one of the closed period. *)
Lemma C4_scenario_B_counterexample :
  posted (self scenario_B) = true /\
  locked (self scenario_B) = false /\
  EntityModel.last_closing_date (entity (self scenario_B)) = Some (mkdate 2023 1 31) /\
  most_recent_posted (self scenario_B)
    (JournalEntryModel.timestamp (entry 2023 1 15 true)) /\
  outcome delete scenario_B = Raised (LedgerNotDeletable (self scenario_B)) /\
  outcome delete scenario_B
    <> Raised (ClosedPeriodViolation (mkdate 2023 1 15) (mkdate 2023 1 31)).
Proof.
  repeat split; try reflexivity; try discriminate.
  - now exists (entry 2023 1 15 true); simpl; intuition.
  - simpl. intros e [<- | [<- | [<- | []]]] Hp;
      first [reflexivity | discriminate Hp].
Qed.

(** C4, amended. A ledger that is posted and not locked, with books closed
    on 2023-01-31 and most recent posted entry on 2023-01-15, is refused
    by [delete] for its state, with the error that carries its name and
    its posted and locked values; once unposted, it is refused for the
    closed period, with the error that carries 2023-01-15 and 2023-01-31.
    Neither attempt changes the ledger or reaches the ORM. *)
Theorem C4_scenario_B (h : Heap) (ts : datetime) :
  posted (self h) = true ->
  locked (self h) = false ->
  EntityModel.last_closing_date (entity (self h)) = Some (mkdate 2023 1 31) ->
  most_recent_posted (self h) ts ->
  date_of ts = mkdate 2023 1 15 ->
  delete h = (Raised (LedgerNotDeletable (self h)), h) /\
  delete (after (unpost false) h) =
    (Raised (ClosedPeriodViolation (mkdate 2023 1 15) (mkdate 2023 1 31)),
     after (unpost false) h).
Proof.
  intros Hp Hl Hd Hts Hdate. split.
  - apply delete_not_deletable. unfold can_delete, is_locked, is_posted.
    now rewrite Hp, Hl.
  - destruct h as [l tr]; destruct l as [u n e p k hd jes]; simpl in *; subst.
    assert (Hu : after (unpost false)
                   {| self := mk u n e true false hd jes; calls := tr |}
                 = {| self := mk u n e false false hd jes; calls := tr |})
      by reflexivity.
    rewrite Hu.
    rewrite (delete_closing_set _ ts (mkdate 2023 1 31)); simpl; auto.
    + now rewrite Hdate.
    + now apply queried_timestamp_some.
Qed.

(** The ledger of scenario B, before and after it is unposted. *)
Lemma C4_scenario_B_witness :
  delete scenario_B = (Raised (LedgerNotDeletable (self scenario_B)), scenario_B) /\
  delete (after (unpost false) scenario_B) =
    (Raised (ClosedPeriodViolation (mkdate 2023 1 15) (mkdate 2023 1 31)),
     after (unpost false) scenario_B).
Proof.
  apply (C4_scenario_B scenario_B (JournalEntryModel.timestamp (entry 2023 1 15 true)));
    try reflexivity.
  split.
  - exists (entry 2023 1 15 true); simpl; intuition.
  - simpl. intros e [<- | [<- | [<- | []]]] Hp;
      first [reflexivity | discriminate Hp].
Defined.

(** C5. On a deletable ledger with one posted journal entry, under an
    entity whose closing date is unset, [delete] evaluates the comparison
    against the unset date and raises [TypeError]; the ledger is not
    destroyed. *)
Theorem C5_delete_unset_closing_date :
  can_delete (self never_closed) = true /\
  EntityModel.last_closing_date (entity (self never_closed)) = None /\
  outcome delete never_closed = Raised TypeError /\
  after delete never_closed = never_closed.
Proof.
  repeat split.
Qed.

(** ** Frame *)

(** C10. post and unpost leave every field but [posted] as it was, lock and
    unlock every field but [locked]; none of the five operations changes
    [hidden]; and a [delete] that raises a validation error leaves the
    three flags, and indeed the whole heap, as they were. *)
Theorem C10_frame (h : Heap) (commit : bool) :
  same_but_posted (self h) (self (after (post commit) h)) /\
  same_but_posted (self h) (self (after (unpost commit) h)) /\
  same_but_locked (self h) (self (after (lock commit) h)) /\
  same_but_locked (self h) (self (after (unlock commit) h)) /\
  (forall c, hidden (self (after (exec c) h)) = hidden (self h)) /\
  hidden (self (after delete h)) = hidden (self h) /\
  (forall m, outcome delete h = Raised (LedgerModelValidationError m) ->
     flags (self (after delete h)) = flags (self h) /\ after delete h = h).
Proof.
  destruct (delete_frame h) as [Hself Hraise].
  repeat match goal with |- _ /\ _ => split end.
  - destruct commit, h as [l tr]; by_flags l; run_method;
      unfold same_but_posted; simpl; tauto.
  - destruct commit, h as [l tr]; by_flags l; run_method;
      unfold same_but_posted; simpl; tauto.
  - destruct commit, h as [l tr]; by_flags l; run_method;
      unfold same_but_locked; simpl; tauto.
  - destruct commit, h as [l tr]; by_flags l; run_method;
      unfold same_but_locked; simpl; tauto.
  - intros [[]|[]|[]|[]]; destruct h as [l tr]; by_flags l; run_method;
      reflexivity.
  - now rewrite Hself.
  - intros m Hm. rewrite (Hraise _ Hm). split; reflexivity.
Qed.

(** Both validation errors of [delete], on the ledgers of scenario B. *)
Lemma C10_frame_witness :
  flags (self (after delete scenario_B)) = flags (self scenario_B) /\
  flags (self (after delete (after (unpost false) scenario_B)))
    = flags (self (after (unpost false) scenario_B)).
Proof.
  split.
  - exact (proj1 (proj2 (proj2 (proj2 (proj2 (proj2 (proj2
             (C10_frame scenario_B false)))))) _ eq_refl)).
  - exact (proj1 (proj2 (proj2 (proj2 (proj2 (proj2 (proj2
             (C10_frame (after (unpost false) scenario_B) false)))))) _ eq_refl)).
Defined.

(** ** The entity filter *)

Section ForEntity.
Import LedgerModelManager.

Lemma in_join_managers (l : LedgerModel.t) (r : Row) :
  In r (join_managers l) <->
  ledger r = l /\
  match manager r with
  | Some m => In m (EntityModel.managers (entity l))
  | None => EntityModel.managers (entity l) = []
  end.
Proof.
  unfold join_managers.
  destruct (EntityModel.managers (entity l)) as [|m0 ms] eqn:E.
  - simpl. split.
    + intros [<- | []]; simpl; auto.
    + destruct r as [l' [m|]]; simpl; intros [-> H]; [destruct H | now left].
  - rewrite in_map_iff. split.
    + intros [m [<- Hm]]; simpl; auto.
    + destruct r as [l' [m|]]; simpl; intros [-> H].
      * exists m; auto.
      * discriminate.
Qed.

(** The outer join keeps every ledger, with or without managers. *)
Lemma join_managers_inhabited (l : LedgerModel.t) :
  exists r, In r (join_managers l).
Proof.
  unfold join_managers.
  destruct (EntityModel.managers (entity l)) as [|m ms]; simpl; eauto.
Qed.

Lemma in_managers_in (u : UserModel) (r : Row) :
  Q_entity__managers__in [u] r = true <-> manager r = Some u.
Proof.
  unfold Q_entity__managers__in.
  destruct (manager r) as [m|]; simpl.
  - rewrite orb_false_r, Z.eqb_eq. split; congruence.
  - split; discriminate.
Qed.

(** A ledger passes the filter through one of its joined rows exactly when
    the user is admin or manager of its entity. *)
Lemma row_for_user (l : LedgerModel.t) (u : UserModel) :
  (exists r, In r (join_managers l) /\
             (Q_entity__admin u r || Q_entity__managers__in [u] r) = true) <->
  admin_or_manager u (entity l).
Proof.
  unfold admin_or_manager. split.
  - intros [r [Hr Hq]]. apply in_join_managers in Hr as [<- Hm].
    apply orb_true_iff in Hq as [Ha | Hi].
    + left. now apply Z.eqb_eq.
    + right. apply in_managers_in in Hi. now rewrite Hi in Hm.
  - intros [Ha | Hi].
    + destruct (join_managers_inhabited l) as [r Hr].
      exists r; split; [exact Hr |].
      apply in_join_managers in Hr as [Hl _].
      apply orb_true_iff; left. unfold Q_entity__admin.
      rewrite Hl. now apply Z.eqb_eq.
    + exists (mkRow l (Some u)). split.
      * apply in_join_managers; simpl; auto.
      * apply orb_true_iff; right. now apply in_managers_in.
Qed.

Lemma in_qs_filter (q : LedgerModel.t -> bool) (table : list LedgerModel.t)
    (u : UserModel) (l : LedgerModel.t) :
  In l (qs_filter (fun r => q (ledger r) &&
                            (Q_entity__admin u r || Q_entity__managers__in [u] r))
          (get_queryset table)) <->
  In l table /\ q l = true /\ admin_or_manager u (entity l).
Proof.
  unfold qs_filter, get_queryset.
  rewrite in_map_iff. split.
  - intros [r [<- Hr]]. apply filter_In in Hr as [Hr Hq].
    apply in_flat_map in Hr as [l' [Hl' Hr]].
    apply andb_true_iff in Hq as [Hq Hu].
    pose proof Hr as Hr'. apply in_join_managers in Hr' as [E _].
    rewrite E in *.
    split; [exact Hl' | split; [exact Hq |]].
    apply row_for_user. now exists r.
  - intros [Hl [Hq Hu]]. apply row_for_user in Hu as [r [Hr Hu]].
    exists r. pose proof Hr as Hr'. apply in_join_managers in Hr' as [Hlr _].
    split; [exact Hlr |]. apply filter_In. split.
    + apply in_flat_map. now exists l.
    + rewrite Hlr, Hq, Hu. reflexivity.
Qed.

End ForEntity.

(** C6. Whether the entity is given as an instance or by its slug,
    [for_entity] returns a ledger exactly when the ledger is in the table,
    belongs to that entity, and the user is the entity's admin or one of
    its managers; so no ledger of an entity that excludes the user is ever
    returned. *)
Theorem C6_for_entity (table : list LedgerModel.t) (ref : EntityRef)
    (u : UserModel) (l : LedgerModel.t) :
  (In l (LedgerModelManager.for_entity table ref u) <->
   In l table /\ belongs_to l ref /\ admin_or_manager u (entity l)) /\
  (~ admin_or_manager u (entity l) ->
   ~ In l (LedgerModelManager.for_entity table ref u)).
Proof.
  assert (H : In l (LedgerModelManager.for_entity table ref u) <->
              In l table /\ belongs_to l ref /\ admin_or_manager u (entity l)).
  { destruct ref as [e | s]; simpl.
    - unfold LedgerModelManager.Q_entity.
      rewrite (in_qs_filter (fun l => EntityModel.uuid (entity l) =? EntityModel.uuid e)).
      now rewrite Z.eqb_eq.
    - unfold LedgerModelManager.Q_entity__slug__exact.
      rewrite (in_qs_filter (fun l => String.eqb (EntityModel.slug (entity l)) s)).
      now rewrite String.eqb_eq. }
  split; [exact H |].
  intros Hno Hin. apply H in Hin. tauto.
Qed.

(** Scenario D: user 9 is neither admin nor manager of the entity. *)
Lemma C6_for_entity_witness :
  let l := self scenario_C in
  ~ In l (LedgerModelManager.for_entity [l] (EntitySlug "acme") 9) /\
  ~ In l (LedgerModelManager.for_entity [l] (EntityInstance (entity l)) 9).
Proof.
  intro l.
  assert (Hno : ~ admin_or_manager 9 (entity l)).
  { unfold admin_or_manager; simpl. intros [H | [H | [H | []]]]; discriminate H. }
  split.
  - exact (proj2 (C6_for_entity [l] (EntitySlug "acme") 9 l) Hno).
  - exact (proj2 (C6_for_entity [l] (EntityInstance (entity l)) 9 l) Hno).
Defined.

(** The queryset is a list of joined rows: the admin of an entity with two
    managers gets each of its ledgers twice. *)
Lemma for_entity_repeats :
  let l := self scenario_C in
  LedgerModelManager.for_entity [l] (EntitySlug "acme") 3 = [l; l].
Proof.
  reflexivity.
Qed.

(** * Further properties of the state machine *)

Lemma exec_keeps_hidden (c : Call) (h : Heap) :
  hidden (self (after (exec c) h)) = hidden (self h).
Proof.
  destruct c as [[]|[]|[]|[]], h as [l tr]; by_flags l; run_method; reflexivity.
Qed.

Lemma reachable_visible (h : Heap) : reachable h -> hidden (self h) = false.
Proof.
  induction 1 as [u n e | c h Hr IH]; [reflexivity |].
  now rewrite <- IH, <- (exec_keeps_hidden c h).
Qed.

(** X1. The flag triples of the ledgers reachable from creation by post,
    unpost, lock and unlock are exactly three: unposted, posted, posted
    and locked, always with [hidden] false. *)
Theorem X1_reachable_states (p k hd : bool) :
  (exists h, reachable h /\ flags (self h) = (p, k, hd)) <->
  hd = false /\ (k = true -> p = true).
Proof.
  split.
  - intros [h [Hr Hf]]. unfold flags in Hf. injection Hf as <- <- <-.
    split; [now apply reachable_visible | now apply reachable_invariant].
  - intros [-> Hinv].
    pose (h0 := fresh 1 None (acme None)).
    destruct p, k.
    + exists (after (exec (Lock false)) (after (exec (Post false)) h0)).
      split; [repeat constructor | reflexivity].
    + exists (after (exec (Post false)) h0).
      split; [repeat constructor | reflexivity].
    + discriminate (Hinv eq_refl).
    + exists h0. split; [constructor | reflexivity].
Qed.

(** X2. On a ledger where locked implies posted, the guards single out
    one of three states: only posting (and deleting) is possible, or only
    unposting and locking, or only unlocking. *)
Theorem X2_enabled_calls (l : LedgerModel.t) :
  (locked l = true -> posted l = true) ->
  (can_post l = true /\ can_unpost l = false /\ can_lock l = false /\
   can_unlock l = false /\ can_delete l = true) \/
  (can_post l = false /\ can_unpost l = true /\ can_lock l = true /\
   can_unlock l = false /\ can_delete l = false) \/
  (can_post l = false /\ can_unpost l = false /\ can_lock l = false /\
   can_unlock l = true /\ can_delete l = false).
Proof.
  intro Hinv. unfold can_delete. by_flags l; run_method.
  - right; right; repeat split.
  - right; left; repeat split.
  - discriminate (Hinv eq_refl).
  - left; repeat split.
Qed.

Lemma X2_enabled_calls_witness :
  let l := self scenario_B in
  can_post l = false /\ can_unpost l = true /\ can_lock l = true /\
  can_unlock l = false /\ can_delete l = false.
Proof.
  intro l.
  destruct (X2_enabled_calls l (fun _ => eq_refl)) as [H | [H | H]].
  - destruct H as [H _]. discriminate H.
  - exact H.
  - destruct H as [_ [H _]]. discriminate H.
Defined.

Lemma run_returns (cs : list Call) (h : Heap) :
  outcome (run cs) h = Returned tt.
Proof.
  revert h; induction cs as [|c cs IH]; intro h; [reflexivity |].
  unfold outcome in *. simpl. unfold bind.
  pose proof (exec_returns c h) as Hc. unfold outcome in Hc.
  destruct (exec c h) as [r h1]; simpl in *; subst r. apply IH.
Qed.

Lemma run_cons (c : Call) (cs : list Call) (h : Heap) :
  after (run (c :: cs)) h = after (run cs) (after (exec c) h).
Proof.
  unfold after. simpl. unfold bind.
  pose proof (exec_returns c h) as Hc. unfold outcome in Hc.
  destruct (exec c h) as [r h1]; simpl in *; subst r. reflexivity.
Qed.

(** X4. On a ledger where locked implies posted, a call whose guard
    holds is undone by the opposite call: post by unpost, unpost by post,
    lock by unlock, unlock by lock. *)
Theorem X4_inverse_call_restores (c : Call) (commit : bool) (h : Heap) :
  (locked (self h) = true -> posted (self h) = true) ->
  can c (self h) = true ->
  self (after (exec c ;; exec (inverse c commit)) h) = self h.
Proof.
  intros Hinv Hcan.
  destruct c as [[]|[]|[]|[]], commit, h as [l tr]; by_flags l; run_method;
    try discriminate; try reflexivity; discriminate (Hinv eq_refl).
Qed.

Lemma X4_inverse_call_restores_witness :
  let h := on_self (set_posted false) scenario_B in
  posted (self (after (exec (Post true)) h)) = true /\
  self (after (exec (Post true) ;; exec (inverse (Post true) true)) h) = self h.
Proof.
  intro h. split; [reflexivity |].
  apply (X4_inverse_call_restores (Post true) true h); [discriminate | reflexivity].
Defined.

(** X5. Each of the four calls is idempotent: repeated at once, with
    either commit flag, it returns normally and changes neither the
    ledger nor the ORM trace. *)
Theorem X5_calls_idempotent (c : Call) (commit : bool) (h : Heap) :
  exec (again c commit) (after (exec c) h) = (Returned tt, after (exec c) h).
Proof.
  destruct c as [[]|[]|[]|[]], commit, h as [l tr]; by_flags l; run_method;
    reflexivity.
Qed.

(** X6. On a ledger where locked implies posted, unlock followed by
    unpost always leaves a ledger that passes the state check of
    [delete]. *)
Theorem X6_unlock_unpost_makes_deletable (c1 c2 : bool) (h : Heap) :
  (locked (self h) = true -> posted (self h) = true) ->
  can_delete (self (after (unlock c1 ;; unpost c2) h)) = true.
Proof.
  intro Hinv. unfold can_delete.
  destruct c1, c2, h as [l tr]; by_flags l; run_method;
    try reflexivity; discriminate (Hinv eq_refl).
Qed.

Lemma X6_unlock_unpost_makes_deletable_witness :
  let h := on_self (set_locked true) scenario_B in
  can_delete (self h) = false /\
  can_delete (self (after (unlock true ;; unpost true) h)) = true.
Proof.
  intro h. split; [reflexivity |].
  exact (X6_unlock_unpost_makes_deletable true true h (fun _ => eq_refl)).
Defined.

(** * What reaches the ORM *)

Lemma exec_trace (c : Call) (h : Heap) :
  calls (after (exec c) h) =
  (calls h ++ (if can c (self h) && commit_of c
               then [Save [field_of c; "updated"]]
               else []))%list.
Proof.
  destruct c as [[]|[]|[]|[]], h as [l tr]; by_flags l; run_method;
    rewrite ?app_nil_r; reflexivity.
Qed.

(** X7. A call saves exactly when its guard holds and [commit] is set,
    and then once, naming the flag it assigned and [updated]; otherwise
    it makes no call to the ORM. *)
Theorem X7_call_trace (c : Call) (h : Heap) :
  calls (after (exec c) h) =
  (calls h ++ (if can c (self h) && commit_of c
               then [Save [field_of c; "updated"]]
               else []))%list.
Proof.
  exact (exec_trace c h).
Qed.

(** X8. Over any sequence of calls the ORM trace only grows, by at most
    one entry per call, each a save of one flag and [updated], never a
    delete; and without any [commit] nothing reaches the ORM at all,
    whatever happens to the flags in memory. *)
Theorem X8_run_trace (cs : list Call) (h : Heap) :
  exists saves,
    calls (after (run cs) h) = (calls h ++ saves)%list /\
    (List.length saves <= List.length cs)%nat /\
    Forall partial_save saves /\
    ((forall c, In c cs -> commit_of c = false) -> saves = []).
Proof.
  revert h; induction cs as [|c cs IH]; intro h.
  - exists []. simpl. rewrite app_nil_r. repeat split; auto.
  - rewrite run_cons.
    destruct (IH (after (exec c) h)) as [saves [Hc [Hlen [Hall Hnone]]]].
    rewrite Hc, exec_trace, <- app_assoc.
    eexists; split; [reflexivity |].
    destruct (can c (self h) && commit_of c) eqn:E; simpl.
    + split; [lia | split].
      * constructor; [| exact Hall].
        destruct c; simpl; unfold partial_save; auto.
      * intro Hno. apply andb_true_iff in E as [_ E].
        rewrite (Hno c (or_introl eq_refl)) in E. discriminate E.
    + split; [lia | split; [exact Hall |]].
      intro Hno. apply Hnone. intros c' Hc'. apply Hno. now right.
Qed.

Lemma X8_run_trace_witness :
  let h := fresh 1 None (acme None) in
  let cs := [Post false; Lock false; Unlock false] in
  flags (self (after (run cs) h)) = (true, false, false) /\
  calls (after (run cs) h) = calls h.
Proof.
  intros h cs. split; [reflexivity |].
  destruct (X8_run_trace cs h) as [saves [Hc [_ [_ Hnone]]]].
  rewrite Hc, Hnone.
  - apply app_nil_r.
  - intros c [<- | [<- | [<- | []]]]; reflexivity.
Defined.

(** * The outcomes of [delete] *)

Lemma most_recent_posted_unique (l : LedgerModel.t) (ts ts' : datetime) :
  most_recent_posted l ts -> most_recent_posted l ts' -> ts = ts'.
Proof.
  intros H H'. apply queried_timestamp_some in H, H'. congruence.
Qed.

Lemma most_recent_posted_some_entry (l : LedgerModel.t) (ts : datetime) :
  most_recent_posted l ts -> ~ no_posted_entry l.
Proof.
  intros H Hno. apply queried_timestamp_some in H.
  apply queried_timestamp_none in Hno. congruence.
Qed.

Lemma delete_cases (h : Heap) : delete_case h (delete h).
Proof.
  rewrite delete_eq.
  destruct (can_delete (self h)) eqn:Hc; [| now constructor].
  destruct (queried_timestamp (self h)) as [ts|] eqn:Hq.
  - apply queried_timestamp_some in Hq.
    destruct (EntityModel.last_closing_date (entity (self h))) as [c|] eqn:Hd.
    + destruct (date_le (date_of ts) c) eqn:Hle.
      * now apply refused_for_closed_period.
      * now apply destroyed_after_closing with ts c.
    + now apply failed_on_unset_date with ts.
  - apply queried_timestamp_none in Hq. now constructor.
Qed.

(** X9. [delete] destroys the ledger exactly when the ledger is neither
    posted nor locked and either has no posted journal entry, or its
    entity has a closing date and the most recent posted entry is dated
    after it; the ORM then receives one delete, and none otherwise. *)
Theorem X9_delete_succeeds_iff (h : Heap) :
  (outcome delete h = Returned tt <->
   can_delete (self h) = true /\
   (no_posted_entry (self h) \/
    exists ts c,
      most_recent_posted (self h) ts /\
      EntityModel.last_closing_date (entity (self h)) = Some c /\
      date_le (date_of ts) c = false)) /\
  after delete h = match outcome delete h with
                   | Returned _ => destroyed h
                   | Raised _ => h
                   end.
Proof.
  unfold outcome, after.
  destruct (delete_cases h) as [Hc | Hc Hno | ts Hc Hts Hd | ts c Hc Hts Hd Hle
                               | ts c Hc Hts Hd Hle]; simpl;
    (split; [| reflexivity]); split; try discriminate; auto.
  - intros [Hc' _]. congruence.
  - intros [_ [Hno | [ts' [c [_ [Hd' _]]]]]].
    + destruct (most_recent_posted_some_entry _ _ Hts Hno).
    + congruence.
  - intros [_ [Hno | [ts' [c' [Hts' [Hd' Hle']]]]]].
    + destruct (most_recent_posted_some_entry _ _ Hts Hno).
    + rewrite (most_recent_posted_unique _ _ _ Hts Hts') in Hle.
      congruence.
  - intros _. split; [exact Hc | right; now exists ts, c].
Qed.

(** X10. [delete] reports a closed period exactly when the ledger is
    neither posted nor locked, its entity has a closing date, and the most
    recent posted entry is dated on or before it; the error carries that
    entry's date and the closing date. Posted entries older than the most
    recent one play no part. *)
Theorem X10_delete_closed_period_iff (h : Heap) (d c : date) :
  outcome delete h = Raised (ClosedPeriodViolation d c) <->
  can_delete (self h) = true /\
  EntityModel.last_closing_date (entity (self h)) = Some c /\
  date_le d c = true /\
  exists ts, most_recent_posted (self h) ts /\ date_of ts = d.
Proof.
  unfold outcome.
  destruct (delete_cases h) as [Hc | Hc Hno | ts Hc Hts Hd | ts c' Hc Hts Hd Hle
                               | ts c' Hc Hts Hd Hle]; simpl;
    split; try discriminate.
  - intros [Hc' _]. congruence.
  - intros [_ [_ [_ [ts [Hts _]]]]].
    destruct (most_recent_posted_some_entry _ _ Hts Hno).
  - intros [_ [Hd' _]]. congruence.
  - unfold ClosedPeriodViolation. intros [= <- <-].
    repeat split; auto. now exists ts.
  - intros [_ [Hd' [_ [ts' [Hts' <-]]]]].
    rewrite (most_recent_posted_unique _ _ _ Hts' Hts). congruence.
  - intros [_ [Hd' [Hle' [ts' [Hts' <-]]]]].
    rewrite (most_recent_posted_unique _ _ _ Hts' Hts) in Hle'. congruence.
Qed.

(** X11. [delete] raises [TypeError] exactly when the ledger is neither
    posted nor locked, some journal entry is posted, and the entity has no
    closing date. *)
Theorem X11_delete_type_error_iff (h : Heap) :
  outcome delete h = Raised TypeError <->
  can_delete (self h) = true /\
  ~ no_posted_entry (self h) /\
  EntityModel.last_closing_date (entity (self h)) = None.
Proof.
  unfold outcome.
  destruct (delete_cases h) as [Hc | Hc Hno | ts Hc Hts Hd | ts c' Hc Hts Hd Hle
                               | ts c' Hc Hts Hd Hle];
    unfold LedgerNotDeletable, ClosedPeriodViolation; simpl;
    split; try discriminate.
  - intros [Hc' _]. congruence.
  - intros [_ [Hsome _]]. destruct (Hsome Hno).
  - intros _. repeat split; auto.
    now apply most_recent_posted_some_entry with ts.
  - reflexivity.
  - intros [_ [_ Hd']]. congruence.
  - intros [_ [_ Hd']]. congruence.
Qed.

(** X12. [delete] refuses a ledger for its state exactly when the ledger
    is posted or locked, before any journal entry or closing date is
    looked at; the error carries the ledger's name and its posted and
    locked values. *)
Theorem X12_delete_not_deletable_iff (h : Heap) (n : option string) (p k : bool) :
  outcome delete h = Raised (LedgerModelValidationError (cannot_be_deleted n p k)) <->
  (posted (self h) = true \/ locked (self h) = true) /\
  n = name (self h) /\ p = posted (self h) /\ k = locked (self h).
Proof.
  assert (Hcd : can_delete (self h) = false <->
                posted (self h) = true \/ locked (self h) = true).
  { unfold can_delete, is_locked, is_posted.
    destruct (posted (self h)), (locked (self h)); simpl; intuition congruence. }
  unfold outcome.
  destruct (delete_cases h) as [Hc | Hc Hno | ts Hc Hts Hd | ts c' Hc Hts Hd Hle
                               | ts c' Hc Hts Hd Hle]; simpl;
    split; try discriminate;
    try (intros [Hpl _]; apply Hcd in Hpl; congruence).
  - unfold LedgerNotDeletable. intros [= <- <- <-].
    split; [now apply Hcd | auto].
  - intros [_ [-> [-> ->]]]. reflexivity.
Qed.

(** * What [delete] depends on *)

Lemma queried_timestamp_ext (l l' : LedgerModel.t) :
  (forall ts, most_recent_posted l ts <-> most_recent_posted l' ts) ->
  (no_posted_entry l <-> no_posted_entry l') ->
  queried_timestamp l = queried_timestamp l'.
Proof.
  intros Hsome Hnone.
  destruct (queried_timestamp l) as [ts|] eqn:E; symmetry.
  - now apply queried_timestamp_some, Hsome, queried_timestamp_some.
  - now apply queried_timestamp_none, Hnone, queried_timestamp_none.
Qed.

(** X13. The outcome of [delete] depends on the journal entries only
    through the set of posted ones: the order of the rows, repeated rows
    and unposted entries make no difference. *)
Theorem X13_delete_reads_posted_entries (l : LedgerModel.t)
    (jes jes' : list JournalEntryModel.t) (tr tr' : list DbCall) :
  (forall e, JournalEntryModel.posted e = true -> (In e jes <-> In e jes')) ->
  outcome delete {| self := with_journal_entries jes l; calls := tr |} =
  outcome delete {| self := with_journal_entries jes' l; calls := tr' |}.
Proof.
  intro Hsame.
  assert (Hq : queried_timestamp (with_journal_entries jes l) =
               queried_timestamp (with_journal_entries jes' l)).
  { apply queried_timestamp_ext.
    - intro ts. unfold most_recent_posted; simpl. split.
      + intros [[e [He [Hp Ht]]] Hall]. split.
        * exists e. repeat split; auto. now apply Hsame.
        * intros e' He' Hp'. apply Hall; auto. now apply Hsame.
      + intros [[e [He [Hp Ht]]] Hall]. split.
        * exists e. repeat split; auto. now apply Hsame.
        * intros e' He' Hp'. apply Hall; auto. now apply Hsame.
    - unfold no_posted_entry; simpl. split; intros Hno e He;
        destruct (JournalEntryModel.posted e) eqn:Hp; auto;
        rewrite <- Hp; apply Hno; now apply Hsame. }
  unfold outcome. rewrite !delete_eq. simpl self. rewrite <- Hq.
  unfold can_delete, is_locked, is_posted, LedgerNotDeletable; simpl.
  destruct (negb (locked l) && negb (posted l)); [| reflexivity].
  destruct (queried_timestamp (with_journal_entries jes l)) as [ts|];
    [| reflexivity].
  destruct (EntityModel.last_closing_date (entity l)) as [c|]; [| reflexivity].
  destruct (date_le (date_of ts) c); reflexivity.
Qed.

(** Reversed rows, a repeated row and an extra unposted entry. *)
Lemma X13_delete_reads_posted_entries_witness :
  outcome delete scenario_C =
  outcome delete
    (ledger_of (acme (Some (mkdate 2023 1 31))) false false
       [entry 2023 2 1 true; entry 2022 6 1 false; entry 2023 1 15 true;
        entry 2023 2 1 true]).
Proof.
  apply (X13_delete_reads_posted_entries (self scenario_C)
           [entry 2023 1 15 true; entry 2023 2 1 true]
           [entry 2023 2 1 true; entry 2022 6 1 false; entry 2023 1 15 true;
            entry 2023 2 1 true] [] []).
  intros e Hp; simpl; split.
  - intros [<- | [<- | []]]; auto.
  - intros [<- | [<- | [<- | [<- | []]]]]; auto. discriminate Hp.
Defined.

Lemma date_le_trans (a b c : date) :
  date_le a b = true -> date_le b c = true -> date_le a c = true.
Proof.
  unfold date_le; intros Hab Hbc.
  pose proof (tuple_cmp_trans (date_key a) (date_key b) (date_key c)) as T.
  destruct (tuple_cmp (date_key a) (date_key b)),
           (tuple_cmp (date_key b) (date_key c)),
           (tuple_cmp (date_key a) (date_key c));
    try reflexivity; try discriminate; exfalso; apply T; congruence.
Qed.

(** X14. Moving the closing date back never blocks a deletion: a ledger
    that [delete] destroys under one closing date is destroyed under any
    earlier one as well. *)
Theorem X14_delete_earlier_closing_date (l : LedgerModel.t) (c c' : date)
    (tr : list DbCall) :
  date_le c' c = true ->
  outcome delete {| self := with_closing_date (Some c) l; calls := tr |}
    = Returned tt ->
  outcome delete {| self := with_closing_date (Some c') l; calls := tr |}
    = Returned tt.
Proof.
  intro Hle. unfold outcome. rewrite !delete_eq. simpl self.
  change (queried_timestamp (with_closing_date (Some c) l))
    with (queried_timestamp l).
  change (queried_timestamp (with_closing_date (Some c') l))
    with (queried_timestamp l).
  unfold can_delete, is_locked, is_posted; simpl.
  destruct (negb (locked l) && negb (posted l)); [| discriminate].
  destruct (queried_timestamp l) as [ts|]; [| reflexivity].
  destruct (date_le (date_of ts) c) eqn:E; [discriminate |].
  destruct (date_le (date_of ts) c') eqn:E'; [| reflexivity].
  rewrite (date_le_trans _ _ _ E' Hle) in E. discriminate E.
Qed.

Lemma X14_delete_earlier_closing_date_witness :
  outcome delete
    {| self := with_closing_date (Some (mkdate 2022 12 31)) (self scenario_C);
       calls := [] |} = Returned tt.
Proof.
  apply (X14_delete_earlier_closing_date (self scenario_C)
           (mkdate 2023 1 31) (mkdate 2022 12 31) []); reflexivity.
Defined.

(** X15. [hidden] is read by no guard and written by no method: with
    another value of [hidden] every call and [delete] have the same
    outcome and leave the same ledger, but for that flag. *)
Theorem X15_hidden_is_orthogonal (b : bool) (c : Call) (h : Heap) :
  exec c (on_self (with_hidden b) h) =
    (outcome (exec c) h, on_self (with_hidden b) (after (exec c) h)) /\
  delete (on_self (with_hidden b) h) =
    (outcome delete h, on_self (with_hidden b) (after delete h)).
Proof.
  split.
  - destruct c as [[]|[]|[]|[]], h as [l tr]; by_flags l; run_method;
      reflexivity.
  - unfold outcome, after. rewrite !delete_eq.
    destruct h as [l tr]; simpl.
    change (queried_timestamp (with_hidden b l)) with (queried_timestamp l).
    unfold can_delete, is_locked, is_posted, LedgerNotDeletable; simpl.
    destruct (negb (locked l) && negb (posted l)); [| reflexivity].
    destruct (queried_timestamp l) as [ts|]; [| reflexivity].
    destruct (EntityModel.last_closing_date (entity l)) as [d|]; [| reflexivity].
    destruct (date_le (date_of ts) d); reflexivity.
Qed.

(** * Querysets *)

Section Rows.
Import LedgerModelManager.

Variable qm : LedgerModel.t -> bool.
Variable u : UserModel.

Let q (r : Row) : bool :=
  qm (ledger r) && (Q_entity__admin u r || Q_entity__managers__in [u] r).

Lemma filter_manager_rows (l : LedgerModel.t) (ms : list UserModel) :
  qs_filter q (map (fun m => mkRow l (Some m)) ms) =
  repeat l (if qm l then
              if EntityModel.admin (entity l) =? u then List.length ms
              else List.length (filter (fun m => m =? u) ms)
            else 0%nat).
Proof.
  unfold qs_filter, q, Q_entity__admin, Q_entity__managers__in.
  induction ms as [|m ms IH]; simpl.
  - destruct (qm l), (EntityModel.admin (entity l) =? u); reflexivity.
  - rewrite orb_false_r.
    destruct (qm l), (EntityModel.admin (entity l) =? u), (m =? u);
      simpl in *; rewrite ?IH; reflexivity.
Qed.

Lemma filter_join_managers (l : LedgerModel.t) :
  qs_filter q (join_managers l) =
  repeat l (if qm l then
              if EntityModel.admin (entity l) =? u
              then Nat.max 1 (List.length (EntityModel.managers (entity l)))
              else List.length (filter (fun m => m =? u)
                                  (EntityModel.managers (entity l)))
            else 0%nat).
Proof.
  unfold join_managers.
  destruct (EntityModel.managers (entity l)) as [|m ms].
  - unfold qs_filter, q, Q_entity__admin, Q_entity__managers__in; simpl.
    rewrite orb_false_r.
    destruct (qm l), (EntityModel.admin (entity l) =? u); reflexivity.
  - rewrite filter_manager_rows. reflexivity.
Qed.

Lemma qs_filter_flat_map (table : list LedgerModel.t) :
  qs_filter q (get_queryset table) =
  flat_map (fun l => qs_filter q (join_managers l)) table.
Proof.
  unfold qs_filter, get_queryset.
  induction table as [|l table IH]; simpl; [reflexivity |].
  now rewrite filter_app, map_app, IH.
Qed.

End Rows.

Lemma for_entity_rows (table : list LedgerModel.t) (ref : EntityRef)
    (u : UserModel) :
  LedgerModelManager.for_entity table ref u =
  flat_map (fun l => repeat l (times_returned ref u l)) table.
Proof.
  unfold times_returned, LedgerModelManager.for_entity, matches.
  destruct ref as [e | s].
  - unfold LedgerModelManager.Q_entity.
    rewrite (qs_filter_flat_map
               (fun l => EntityModel.uuid (entity l) =? EntityModel.uuid e)).
    apply flat_map_ext. intro l.
    exact (filter_join_managers
             (fun l => EntityModel.uuid (entity l) =? EntityModel.uuid e) u l).
  - unfold LedgerModelManager.Q_entity__slug__exact.
    rewrite (qs_filter_flat_map
               (fun l => String.eqb (EntityModel.slug (entity l)) s)).
    apply flat_map_ext. intro l.
    exact (filter_join_managers
             (fun l => String.eqb (EntityModel.slug (entity l)) s) u l).
Qed.


Lemma count_NoDup (u : UserModel) (ms : list UserModel) :
  NoDup ms -> (List.length (filter (fun m => (m =? u)%Z) ms) <= 1)%nat.
Proof.
  induction 1 as [|m ms Hm Hnd IH]; simpl; [lia |].
  destruct (Z.eqb_spec m u) as [-> | Hne]; simpl; [| exact IH].
  assert (E : filter (fun m => m =? u) ms = []).
  { clear - Hm. induction ms as [|a ms IH]; simpl; [reflexivity |].
    destruct (Z.eqb_spec a u) as [-> | Hne].
    - destruct Hm. now left.
    - apply IH. intro H. apply Hm. now right. }
  rewrite E. simpl. lia.
Qed.

Lemma in_flat_map_repeat (f : LedgerModel.t -> nat) (table : list LedgerModel.t)
    (x : LedgerModel.t) :
  In x (flat_map (fun l => repeat l (f l)) table) -> In x table.
Proof.
  intro H. apply in_flat_map in H as [l [Hl Hx]].
  apply repeat_spec in Hx. now subst.
Qed.

(** X17. Over a table without repeated rows, [for_entity] returns no
    ledger twice provided every entity lists each manager once and the
    user is not the admin of an entity with two or more managers. *)
Theorem X17_for_entity_NoDup (table : list LedgerModel.t) (ref : EntityRef)
    (u : UserModel) :
  NoDup table ->
  (forall l, In l table ->
     NoDup (EntityModel.managers (entity l)) /\
     (EntityModel.admin (entity l) = u ->
      (List.length (EntityModel.managers (entity l)) <= 1)%nat)) ->
  NoDup (LedgerModelManager.for_entity table ref u).
Proof.
  rewrite for_entity_rows.
  induction 1 as [|l table Hl Hnd IH]; intro Hms; simpl; [constructor |].
  assert (Hn : (times_returned ref u l <= 1)%nat).
  { destruct (Hms l (or_introl eq_refl)) as [Hnd' Hadm].
    unfold times_returned. destruct (matches ref l); [| lia].
    destruct (Z.eqb_spec (EntityModel.admin (entity l)) u) as [Ha | _].
    - specialize (Hadm Ha). lia.
    - now apply count_NoDup. }
  assert (IH' : NoDup (flat_map (fun l => repeat l (times_returned ref u l)) table)).
  { apply IH. intros l' Hl'. apply Hms. now right. }
  destruct (times_returned ref u l) as [|[|n]]; simpl; [exact IH' | | lia].
  constructor; [| exact IH'].
  intro Hin. apply Hl. now apply in_flat_map_repeat in Hin.
Qed.

Lemma X17_for_entity_NoDup_witness :
  NoDup (LedgerModelManager.for_entity [self scenario_C] (EntitySlug "acme") 4).
Proof.
  apply X17_for_entity_NoDup.
  - constructor; [intros [] | constructor].
  - intros l [<- | []]. split.
    + simpl. constructor; [intros [H | []]; discriminate H |].
      constructor; [intros [] | constructor].
    + simpl. intro H. discriminate H.
Defined.

Lemma filter_repeat (p : LedgerModel.t -> bool) (l : LedgerModel.t) (n : nat) :
  filter p (repeat l n) = if p l then repeat l n else [].
Proof.
  induction n as [|n IH]; simpl; [now destruct (p l) |].
  rewrite IH. now destruct (p l).
Qed.

Lemma filter_for_entity (p : LedgerModel.t -> bool) (table : list LedgerModel.t)
    (ref : EntityRef) (u : UserModel) :
  filter p (LedgerModelManager.for_entity table ref u) =
  LedgerModelManager.for_entity (filter p table) ref u.
Proof.
  rewrite !for_entity_rows.
  induction table as [|l table IH]; simpl; [reflexivity |].
  rewrite filter_app, filter_repeat, IH.
  destruct (p l); reflexivity.
Qed.

(** X18. The queryset filters commute with [for_entity]: filtering the
    ledgers a user may see by posted, hidden or visible gives what
    [for_entity] returns over the table filtered the same way. *)
Theorem X18_filters_commute_with_for_entity (table : list LedgerModel.t)
    (ref : EntityRef) (u : UserModel) :
  LedgerModelQuerySet.posted (LedgerModelManager.for_entity table ref u) =
    LedgerModelManager.for_entity (LedgerModelQuerySet.posted table) ref u /\
  LedgerModelQuerySet.hidden (LedgerModelManager.for_entity table ref u) =
    LedgerModelManager.for_entity (LedgerModelQuerySet.hidden table) ref u /\
  LedgerModelQuerySet.visible (LedgerModelManager.for_entity table ref u) =
    LedgerModelManager.for_entity (LedgerModelQuerySet.visible table) ref u.
Proof.
  repeat split; apply filter_for_entity.
Qed.

(** X19. [visible] and [hidden] split a queryset in two: together they
    hold every row exactly as often as the queryset does, and neither
    keeps a row of the other. *)
Theorem X19_visible_hidden_partition (qs : list LedgerModel.t) :
  Permutation (LedgerModelQuerySet.visible qs ++ LedgerModelQuerySet.hidden qs) qs /\
  LedgerModelQuerySet.hidden (LedgerModelQuerySet.visible qs) = [] /\
  LedgerModelQuerySet.visible (LedgerModelQuerySet.hidden qs) = [].
Proof.
  unfold LedgerModelQuerySet.visible, LedgerModelQuerySet.hidden.
  repeat split.
  - induction qs as [|l qs IH]; simpl; [constructor |].
    destruct (hidden l); simpl.
    + apply Permutation_sym, Permutation_cons_app, Permutation_sym, IH.
    + now constructor.
  - induction qs as [|l qs IH]; simpl; [reflexivity |].
    destruct (hidden l) eqn:E; simpl; [exact IH | now rewrite E].
  - induction qs as [|l qs IH]; simpl; [reflexivity |].
    destruct (hidden l) eqn:E; simpl; [now rewrite E | exact IH].
Qed.

(** X20. Given as an instance or by its slug, an entity selects the same
    ledgers, as long as within the table the slug and the primary key of
    that entity go together. *)
Theorem X20_instance_and_slug_agree (table : list LedgerModel.t)
    (e : EntityModel.t) (u : UserModel) :
  (forall l, In l table ->
     (EntityModel.uuid (entity l) = EntityModel.uuid e <->
      EntityModel.slug (entity l) = EntityModel.slug e)) ->
  LedgerModelManager.for_entity table (EntityInstance e) u =
  LedgerModelManager.for_entity table (EntitySlug (EntityModel.slug e)) u.
Proof.
  intro Hkey. rewrite !for_entity_rows.
  induction table as [|l table IH]; simpl; [reflexivity |].
  rewrite IH by (intros l' Hl'; apply Hkey; now right).
  f_equal. f_equal. unfold times_returned.
  assert (Hm : matches (EntityInstance e) l = matches (EntitySlug (EntityModel.slug e)) l).
  { simpl. specialize (Hkey l (or_introl eq_refl)).
    destruct (Z.eqb_spec (EntityModel.uuid (entity l)) (EntityModel.uuid e)) as [E | E],
             (String.eqb_spec (EntityModel.slug (entity l)) (EntityModel.slug e)) as [E' | E'];
      tauto. }
  now rewrite Hm.
Qed.

Lemma X20_instance_and_slug_agree_witness :
  let l := self scenario_C in
  LedgerModelManager.for_entity [l] (EntityInstance (entity l)) 4 =
  LedgerModelManager.for_entity [l] (EntitySlug "acme") 4.
Proof.
  intro l.
  apply (X20_instance_and_slug_agree [l] (entity l) 4).
  intros l' [<- | []]. split; reflexivity.
Defined.

(** * Lifecycle and deletion together *)

(** X3. Posting protects a ledger: right after [post], whatever the
    ledger was before, [delete] refuses it for its state, reports it as
    posted, and does not reach the ORM. *)
Theorem X3_post_protects_from_delete (commit : bool) (h : Heap) :
  let h' := after (post commit) h in
  delete h' = (Raised (LedgerNotDeletable (self h')), h') /\
  posted (self h') = true.
Proof.
  intro h'. subst h'.
  assert (Hp : posted (self (after (post commit) h)) = true)
    by (destruct commit, h as [l tr]; by_flags l; run_method; reflexivity).
  split; [| exact Hp].
  apply delete_not_deletable. unfold can_delete, is_locked, is_posted.
  rewrite Hp. now rewrite andb_false_r.
Qed.

Lemma reachable_no_entries (h : Heap) :
  reachable h -> journal_entries (self h) = [].
Proof.
  induction 1 as [u n e | c h Hr IH]; [reflexivity |].
  rewrite <- IH.
  destruct c as [[]|[]|[]|[]], h as [l tr]; by_flags l; run_method; reflexivity.
Qed.

(** X21. A ledger that was created and then only posted, unposted,
    locked and unlocked is destroyed by [delete] exactly when it is
    unposted at that moment, whether or not its entity has a closing
    date. *)
Theorem X21_reachable_delete (h : Heap) :
  reachable h ->
  (outcome delete h = Returned tt <-> posted (self h) = false).
Proof.
  intro Hr.
  pose proof (reachable_invariant h Hr) as Hinv.
  pose proof (reachable_no_entries h Hr) as Hje.
  unfold outcome, locked_implies_posted in *. rewrite delete_eq.
  unfold queried_timestamp. rewrite Hje. simpl.
  unfold can_delete, is_locked, is_posted.
  destruct (posted (self h)), (locked (self h)); simpl; split;
    try discriminate; try reflexivity.
  intros _. discriminate (Hinv eq_refl).
Qed.

Lemma X21_reachable_delete_witness :
  let h := after (exec (Unpost true))
             (after (exec (Post true)) (fresh 1 None (acme None))) in
  outcome delete h = Returned tt.
Proof.
  intro h.
  assert (R : reachable h) by (repeat constructor).
  exact (proj2 (X21_reachable_delete h R) eq_refl).
Defined.
